(** * The multisig account of x/accounts/defaults/multisig (account.go)

    A shallow embedding of [Init], [Vote], [Authenticate], [validateConfig]
    and [QuerySequence], and the properties of the account's specification
    settled against it.

    The account keeps its state in five collections of the store that comes
    with the [ctx] of a call; the embedding passes that store explicitly.
    A handler returns [(response, error)]; here it is a computation in a
    small monad that threads the store and ends in a response, in an error,
    or in a run-time panic. *)

From Stdlib Require Import ZArith Strings.Byte.
From stdpp Require Import base option list gmap strings fin_maps.

Local Open Scope Z_scope.

(** ** Bytes as map keys *)

#[global] Instance byte_eq_decision : EqDecision byte := Byte.byte_eq_dec.

#[global] Instance byte_countable : Countable byte :=
  inj_countable Byte.to_N Byte.of_N Byte.of_to_N.

(** ** uint64 arithmetic *)

Definition two64 : Z := 2 ^ 64.

(** The conversion [uint64(x)] of an integer. *)
Definition uint64 (x : Z) : Z := x mod two64.

(** [a + b] on two uint64 values: Go wraps around. *)
Definition add64 (a b : Z) : Z := (a + b) mod two64.

(** ** Errors *)

(** The error values the handlers can return.  [errors_New] carries the text
    given to [errors.New]; [ErrUnsupportedAlgo] is the [fmt.Errorf] of [Init];
    [ErrNotFound] is [collections.ErrNotFound] as a [Get] wraps it, tagged
    with the name the collection was given in [NewAccount]; [ErrExternal] is
    whatever the address codec or a signature handler reports. *)
Inductive error : Type :=
| errors_New (text : string)
| ErrUnsupportedAlgo (algo : string) (allSupportedAlgos : list string)
| ErrNotFound (collection : string)
| ErrExternal (text : string).

#[global] Instance error_eq_decision : EqDecision error.
Proof. solve_decision. Defined.

(** [errors.Is(err, collections.ErrNotFound)]. *)
Definition is_ErrNotFound (err : error) : bool :=
  match err with
  | ErrNotFound _ => true
  | _ => false
  end.

(** A Go result [(T, error)] of a call that touches no store. *)
Abbreviation result A := (error + A)%type.

(** ** Messages and stored records (package v1) *)

Module v1.

(** Modelled from the spec: the generated message types of package v1 are
    not among the sources.  [Config] has the fields the code reads
    ([Threshold], [Quorum], [VotingPeriod], [Algo], [Revote]); the numeric
    ones are integers, which [validateConfig] converts with [uint64]. *)
Record Config : Type := mkConfig {
  Threshold : Z;
  Quorum : Z;
  VotingPeriod : Z;
  Algo : string;
  Revote : bool
}.

(** Modelled from the spec: the status of a proposal and the record kept
    in the Proposal Ledger (payload, creation time, status). *)
Inductive Status : Type := Active | Passed | Rejected | Expired.

Record Proposal : Type := mkProposal {
  Payload : list byte;
  CreatedAt : Z;
  ProposalStatus : Status
}.

(** [MsgInit]: [Config] is a pointer in the source, so it may be nil. *)
Record MsgInit : Type := mkMsgInit {
  PubKeys : list (list byte);
  Weights : list Z;
  InitConfig : option Config
}.

Inductive MsgInitResponse : Type := mkMsgInitResponse.

Record MsgVote : Type := mkMsgVote {
  Signer : string;
  Signature : list byte;
  ProposalId : Z;
  Vote : bool
}.

Inductive MsgVoteResponse : Type := mkMsgVoteResponse.

Inductive QuerySequence : Type := mkQuerySequence.

Record QuerySequenceResponse : Type := mkQuerySequenceResponse {
  Sequence : Z
}.

End v1.

Inductive MsgAuthenticateResponse : Type := mkMsgAuthenticateResponse.

(** ** The store behind [ctx] *)

(** The five collections of [NewAccount], by prefix 0 to 4.  A
    [collections.Map] is a finite map, the [collections.Item] holding the
    configuration is absent or present, and [Sequence] is the value that
    [Peek] reports. *)
Record Store : Type := mkStore {
  Members : gmap (list byte) Z;
  Sequence : Z;
  Config : option v1.Config;
  Proposals : gmap Z v1.Proposal;
  Votes : gmap (Z * list byte) bool
}.

(** ** The account value *)

(** Modelled from the spec: the declaration of [SignatureHandler] is not
    among the sources; it is the capability to recover an identity from
    signature bytes, or to report an error. *)
Record SignatureHandler : Type := mkSignatureHandler {
  RecoverPubKey : list byte → result (list byte)
}.

(** The fields of [Account] that are not collections: the address codec
    (of which [Vote] uses [StringToBytes]) and the custom algorithms. *)
Record Account : Type := mkAccount {
  addrCodec_StringToBytes : string → result (list byte);
  customAlgos : gmap string SignatureHandler
}.

(** ** Handler computations *)

Inductive outcome (A : Type) : Type :=
| Ok (a : A)
| Err (err : error)
| Panic.

Arguments Ok {A} a.
Arguments Err {A} err.
Arguments Panic {A}.

Definition M (A : Type) : Type := Store → Store * outcome A.

#[global] Instance M_ret : MRet M := λ A a ctx, (ctx, Ok a).

#[global] Instance M_bind : MBind M := λ A B k m ctx,
  match m ctx with
  | (ctx', Ok a) => k a ctx'
  | (ctx', Err err) => (ctx', Err err)
  | (ctx', Panic) => (ctx', Panic)
  end.

(** [return nil, err]. *)
Definition fail {A} (err : error) : M A := λ ctx, (ctx, Err err).

(** A nil dereference or a call through a nil handler. *)
Definition panic {A} : M A := λ ctx, (ctx, Panic).

(** A call that touches no store, followed by [if err != nil { return nil, err }]. *)
Definition lift {A} (r : result A) : M A :=
  match r with
  | inl err => fail err
  | inr a => mret a
  end.

(** [_, err = m] without the early return: the error of [m], or [None] for nil. *)
Definition err_of {A} (m : M A) : M (option error) := λ ctx,
  match m ctx with
  | (ctx', Ok _) => (ctx', Ok None)
  | (ctx', Err err) => (ctx', Ok (Some err))
  | (ctx', Panic) => (ctx', Panic)
  end.

(** ** The collections *)

Definition Members_Get (key : list byte) : M Z := λ ctx,
  match Members ctx !! key with
  | Some weight => (ctx, Ok weight)
  | None => (ctx, Err (ErrNotFound "participants"))
  end.

Definition Members_Set (key : list byte) (weight : Z) : M unit := λ ctx,
  (mkStore (<[key := weight]> (Members ctx)) (Sequence ctx) (Config ctx)
           (Proposals ctx) (Votes ctx), Ok tt).

Definition Config_Get : M v1.Config := λ ctx,
  match Config ctx with
  | Some cfg => (ctx, Ok cfg)
  | None => (ctx, Err (ErrNotFound "config"))
  end.

Definition Proposals_Get (id : Z) : M v1.Proposal := λ ctx,
  match Proposals ctx !! id with
  | Some p => (ctx, Ok p)
  | None => (ctx, Err (ErrNotFound "proposals"))
  end.

Definition Votes_Get (key : Z * list byte) : M bool := λ ctx,
  match Votes ctx !! key with
  | Some v => (ctx, Ok v)
  | None => (ctx, Err (ErrNotFound "votes"))
  end.

Definition Votes_Set (key : Z * list byte) (v : bool) : M unit := λ ctx,
  (mkStore (Members ctx) (Sequence ctx) (Config ctx) (Proposals ctx)
           (<[key := v]> (Votes ctx)), Ok tt).

Definition Sequence_Peek : M Z := λ ctx, (ctx, Ok (Sequence ctx)).

(** ** account.go *)

Definition DefaultSigningAlgo : string := "default".

(** The texts of the four [errors.New] of [Init] and [validateConfig], and
    of the one of [Vote]. *)
Definition ErrKeysWeights : error :=
  errors_New "the number of public keys and weights must be equal".
Definition ErrZeroValues : error :=
  errors_New "threshold, quorum and voting period must be greater than zero".
Definition ErrThreshold : error :=
  errors_New "threshold must be less than or equal to the total weight".
Definition ErrQuorum : error :=
  errors_New "quorum must be less than or equal to the total weight".
Definition ErrAlreadyVoted : error :=
  errors_New "voter has already voted, can't change its vote per config".

(** [validateConfig]: [None] is the nil error. *)
Definition validateConfig (cfg : v1.Config) (totalWeight : Z) : option error :=
  if (v1.Threshold cfg =? 0) || (v1.Quorum cfg =? 0) || (v1.VotingPeriod cfg =? 0)
  then Some ErrZeroValues
  else if totalWeight <? uint64 (v1.Threshold cfg)
  then Some ErrThreshold
  else if totalWeight <? uint64 (v1.Quorum cfg)
  then Some ErrQuorum
  else None.

(** The loop of [Init] over [a.customAlgos] that looks for [algo]: it stops
    at the first name that is equal, and otherwise appends the name to the
    list printed by the error.  [names] are the keys in iteration order.
    Go leaves the order of a range over a map unspecified; [Init] below
    takes the order of [map_to_list], and the order shows in the list of
    the error only (see [findAlgo_order]). *)
Fixpoint findAlgo (algo : string) (names allSupportedAlgos : list string)
  : bool * list string :=
  match names with
  | [] => (false, allSupportedAlgos)
  | i :: names' =>
      if String.eqb algo i then (true, allSupportedAlgos)
      else findAlgo algo names' (allSupportedAlgos ++ [i])
  end.

(** The loop [for i := range msg.PubKeys] that sets the participants:
    [Weights[i]] is read at every index of [PubKeys]. *)
Fixpoint setParticipants (PubKeys : list (list byte)) (Weights : list Z) : M unit :=
  match PubKeys, Weights with
  | [], _ => mret tt
  | _ :: _, [] => panic
  | pk :: PubKeys', w :: Weights' =>
      Members_Set pk w ;; setParticipants PubKeys' Weights'
  end.

(** The loop [for _, weight := range msg.Weights] that adds up [totalWeight]. *)
Definition totalWeight (Weights : list Z) : Z := fold_left add64 Weights 0.

Definition Init (a : Account) (msg : v1.MsgInit) : M v1.MsgInitResponse :=
  if negb (length (v1.PubKeys msg) =? length (v1.Weights msg))%nat
  then fail ErrKeysWeights
  else
    match v1.InitConfig msg with
    | None => panic
    | Some cfg =>
        let '(isValidAlgo, allSupportedAlgos) :=
          if String.eqb (v1.Algo cfg) DefaultSigningAlgo
          then (true, [DefaultSigningAlgo])
          else findAlgo (v1.Algo cfg) (map_to_list (customAlgos a)).*1
                        [DefaultSigningAlgo] in
        if negb isValidAlgo
        then fail (ErrUnsupportedAlgo (v1.Algo cfg) allSupportedAlgos)
        else
          setParticipants (v1.PubKeys msg) (v1.Weights msg) ;;
          match validateConfig cfg (totalWeight (v1.Weights msg)) with
          | Some err => fail err
          | None => mret v1.mkMsgInitResponse
          end
    end.

(** The voter of a vote: the signer under the default algorithm, otherwise
    what the handler stored under the algorithm's name recovers from the
    signature.  A name without a handler yields the nil handler, and the
    call through it panics. *)
Definition voterBz (a : Account) (cfg : v1.Config) (msg : v1.MsgVote) : M (list byte) :=
  if String.eqb (v1.Algo cfg) DefaultSigningAlgo
  then lift (addrCodec_StringToBytes a (v1.Signer msg))
  else
    match customAlgos a !! v1.Algo cfg with
    | Some handler => lift (RecoverPubKey handler (v1.Signature msg))
    | None => panic
    end.

Definition Vote (a : Account) (msg : v1.MsgVote) : M v1.MsgVoteResponse :=
  cfg ← Config_Get;
  voter ← voterBz a cfg msg;
  (* check if the voter is a member *)
  Members_Get voter ;;
  (* check if the proposal exists *)
  Proposals_Get (v1.ProposalId msg) ;;
  (* check if the voter has already voted *)
  err ← err_of (Votes_Get (v1.ProposalId msg, voter));
  if bool_decide (err = None) && negb (v1.Revote cfg)
  then fail ErrAlreadyVoted
  else
    match err with
    | Some e =>
        if negb (is_ErrNotFound e) then fail e
        else Votes_Set (v1.ProposalId msg, voter) (v1.Vote msg) ;;
             mret v1.mkMsgVoteResponse
    | None =>
        Votes_Set (v1.ProposalId msg, voter) (v1.Vote msg) ;;
        mret v1.mkMsgVoteResponse
    end.

(** [Authenticate] looks at neither its message nor the store; the message
    type of the account-abstraction interface is left open. *)
Definition Authenticate {MsgAuthenticate : Type} (a : Account) (msg : MsgAuthenticate)
  : M MsgAuthenticateResponse :=
  mret mkMsgAuthenticateResponse.

Definition QuerySequence (a : Account) (q : v1.QuerySequence)
  : M v1.QuerySequenceResponse :=
  seq ← Sequence_Peek;
  mret (v1.mkQuerySequenceResponse seq).

(** ** Notions used by the statements *)

(** The algorithm names [Init] accepts: the default one and the keys of
    [a.customAlgos]. *)
Definition isSupportedAlgo (a : Account) (algo : string) : Prop :=
  algo = DefaultSigningAlgo ∨ is_Some (customAlgos a !! algo).

(** The registry after [Set] was called on the pairs in order. *)
Definition setAll (kvs : list (list byte * Z)) (m : gmap (list byte) Z)
  : gmap (list byte) Z :=
  foldl (λ m' kv, <[kv.1 := kv.2]> m') m kvs.

(** The sum of the weights a registry holds. *)
Definition storedWeight (m : gmap (list byte) Z) : Z :=
  map_fold (λ _ w acc, w + acc) 0 m.

(** ** Concrete accounts, stores and messages *)

Definition alice : list byte := [x01].
Definition bob : list byte := [x02].

(** An account as [NewAccount] builds it: no custom algorithm.  Its codec
    knows the two addresses above. *)
Definition account0 : Account :=
  mkAccount
    (λ s, if String.eqb s "alice" then inr alice
          else if String.eqb s "bob" then inr bob
          else inl (ErrExternal "decoding bech32 failed"))
    ∅.

Definition emptyStore : Store := mkStore ∅ 0 None ∅ ∅.

(** A store with one member, a configuration under algorithm [algo] and
    revote flag [revote], proposal 7 in state [status], and the votes [votes]. *)
Definition store1 (algo : string) (revote : bool) (status : v1.Status)
    (votes : gmap (Z * list byte) bool) : Store :=
  mkStore {[ alice := 1 ]} 0 (Some (v1.mkConfig 1 1 1 algo revote))
          {[ 7 := v1.mkProposal [] 0 status ]} votes.

Definition voteOf (signer : string) (id : Z) (v : bool) : v1.MsgVote :=
  v1.mkMsgVote signer [] id v.

(** One member of weight 1 and a threshold of 2. *)
Definition initThreshold2 : v1.MsgInit :=
  v1.mkMsgInit [alice] [1] (Some (v1.mkConfig 2 1 1 "default" false)).

(** The same identity listed twice with weight 1, threshold and quorum 2. *)
Definition initDuplicate : v1.MsgInit :=
  v1.mkMsgInit [alice; alice] [1; 1] (Some (v1.mkConfig 2 2 1 "default" false)).

(** Two members whose weights add up to 2^64 + 1, threshold 2. *)
Definition initOverflow : v1.MsgInit :=
  v1.mkMsgInit [alice; bob] [two64 - 1; 2] (Some (v1.mkConfig 2 1 1 "default" false)).

(** ** NewAccount *)

(** [Options]: the custom algorithms the application offers. *)
Record Options : Type := mkOptions {
  CustomAlgorithms : gmap string SignatureHandler
}.

(** Of [accountstd.Dependencies] the account keeps the address codec; the
    schema builder and the state codec only shape the collections, and the
    header service is kept but read by no handler of this file. *)
Record Dependencies : Type := mkDependencies {
  AddressCodec : string → result (list byte)
}.

(** [NewAccount]: the creator function it returns, applied to [deps].  The
    struct literal sets the collections, [addrCodec] and [hs]; it names
    neither the handler map (the line is commented out) nor [customAlgos],
    which therefore is the nil map, whatever [opts] holds.  The error
    returned is always nil. *)
Definition NewAccount {HandlerMap : Type} (name : string) (handlerMap : HandlerMap)
    (opts : Options) (deps : Dependencies) : string * Account :=
  (name, mkAccount (AddressCodec deps) ∅).

(** ** Further concrete values *)

(** A handler that takes the signature bytes for the public key, and
    refuses an empty signature. *)
Definition echoHandler : SignatureHandler :=
  mkSignatureHandler
    (λ sig, match sig with
            | [] => inl (ErrExternal "malformed signature")
            | _ => inr sig
            end).

(** An account with the handler above under the name "bls". *)
Definition account1 : Account :=
  mkAccount (addrCodec_StringToBytes account0) {[ "bls" := echoHandler ]}.

(** Two members of weight 2^63 each, threshold 1. *)
Definition initHalves : v1.MsgInit :=
  v1.mkMsgInit [alice; bob] [2 ^ 63; 2 ^ 63] (Some (v1.mkConfig 1 1 1 "default" false)).

(** Two members of weights 1 and 2, threshold 3, quorum 2. *)
Definition initTwo : v1.MsgInit :=
  v1.mkMsgInit [alice; bob] [1; 2] (Some (v1.mkConfig 3 2 1 "default" false)).

(** ** The host's transaction *)

(** Modelled from the spec: the keyed transactional store of the host is
    not among the sources.  All writes within one external call are
    committed atomically or not at all: the handler runs on the store, and
    what it wrote is committed when it returns a response and discarded
    when it returns an error or panics.  The store in the result is the
    committed one, the one later calls observe. *)
Definition atomically {A : Type} (handler : M A) (committed : Store)
  : Store * outcome A :=
  match handler committed with
  | (working, Ok r) => (working, Ok r)
  | (_, Err err) => (committed, Err err)
  | (_, Panic) => (committed, Panic)
  end.

(** An account with two custom algorithms, "bls" and "rsa". *)
Definition account2 : Account :=
  mkAccount (addrCodec_StringToBytes account0)
            {[ "bls" := echoHandler; "rsa" := echoHandler ]}.

(** * Properties *)

(** ** Running a handler *)

(** Unfolds the monad and the collections, so that a handler becomes the
    nest of matches on the store that it is. *)
Ltac run :=
  cbv [mbind M_bind mret M_ret fail panic lift err_of
       Members_Get Members_Set Config_Get Proposals_Get Votes_Get Votes_Set
       Sequence_Peek] in *.

Lemma add64_mod (acc w : Z) : add64 (acc mod two64) w = (acc + w) mod two64.
Proof. unfold add64. by rewrite Zplus_mod_idemp_l. Qed.

Lemma fold_add64 (Weights : list Z) (acc : Z) :
  fold_left add64 Weights (acc mod two64) = (acc + foldr Z.add 0 Weights) mod two64.
Proof.
  revert acc. induction Weights as [|w Weights IH]; intros acc; simpl.
  - by rewrite Z.add_0_r.
  - rewrite add64_mod, IH. f_equal. lia.
Qed.

(** The total that [Init] adds up is the sum of the list modulo 2^64. *)
Lemma totalWeight_sum (Weights : list Z) :
  totalWeight Weights = foldr Z.add 0 Weights mod two64.
Proof. unfold totalWeight. exact (fold_add64 Weights 0). Qed.

(** The voter is worked out without a look at the store. *)
Lemma voterBz_ctx (a : Account) (cfg : v1.Config) (msg : v1.MsgVote) (ctx : Store) :
  (voterBz a cfg msg ctx).1 = ctx.
Proof.
  unfold voterBz.
  destruct (String.eqb _ _); [|destruct (customAlgos a !! _)]; run;
    try done; by match goal with |- context [match ?r with inl _ => _ | inr _ => _ end] =>
                   destruct r end.
Qed.

Lemma voterBz_eq (a : Account) (cfg : v1.Config) (msg : v1.MsgVote) (ctx : Store)
    (o : outcome (list byte)) :
  (voterBz a cfg msg ctx).2 = o → voterBz a cfg msg ctx = (ctx, o).
Proof.
  intros <-. pose proof (voterBz_ctx a cfg msg ctx) as Hctx.
  destruct (voterBz a cfg msg ctx) as [ctx' o]. simpl in Hctx. by subst ctx'.
Qed.

(** [Vote] from the membership check on, once the configuration is read and
    the voter is known. *)
Lemma Vote_resolved (a : Account) (msg : v1.MsgVote) (ctx : Store)
    (cfg : v1.Config) (voter : list byte) :
  Config ctx = Some cfg →
  (voterBz a cfg msg ctx).2 = Ok voter →
  Vote a msg ctx =
    match Members ctx !! voter with
    | None => (ctx, Err (ErrNotFound "participants"))
    | Some _ =>
        match Proposals ctx !! v1.ProposalId msg with
        | None => (ctx, Err (ErrNotFound "proposals"))
        | Some _ =>
            if bool_decide (is_Some (Votes ctx !! (v1.ProposalId msg, voter)))
               && negb (v1.Revote cfg)
            then (ctx, Err ErrAlreadyVoted)
            else (mkStore (Members ctx) (Sequence ctx) (Config ctx) (Proposals ctx)
                          (<[(v1.ProposalId msg, voter) := v1.Vote msg]> (Votes ctx)),
                  Ok v1.mkMsgVoteResponse)
        end
    end.
Proof.
  intros Hcfg Hvoter. apply voterBz_eq in Hvoter.
  unfold Vote. run. rewrite Hcfg, Hvoter.
  destruct (Members ctx !! voter); [|done].
  destruct (Proposals ctx !! v1.ProposalId msg); [|done].
  destruct (Votes ctx !! (v1.ProposalId msg, voter)); simpl;
    destruct (v1.Revote cfg); simpl; by rewrite ?Hcfg.
Qed.

(** ** Config Validation *)



(** For values that fit uint64 the conversion is the identity, so the two
    comparisons are those of the fields themselves. *)
Lemma uint64_id (x : Z) : 0 ≤ x < two64 → uint64 x = x.
Proof. intros. unfold uint64. by apply Z.mod_small. Qed.

(** A negative value above -2^64 converts to itself plus 2^64. *)
Lemma uint64_negative (x : Z) : - two64 ≤ x < 0 → uint64 x = x + two64.
Proof.
  intros. unfold uint64, two64 in *.
  change (2 ^ 64) with 18446744073709551616 in *.
  Z.div_mod_to_equations. lia.
Qed.

(** For a threshold and a quorum that fit uint64, the comparisons are those
    of the fields themselves. *)
Lemma validateConfig_unsigned (cfg : v1.Config) (total : Z) :
  0 ≤ v1.Threshold cfg < two64 →
  0 ≤ v1.Quorum cfg < two64 →
  validateConfig cfg total =
    if decide (v1.Threshold cfg = 0 ∨ v1.Quorum cfg = 0 ∨ v1.VotingPeriod cfg = 0)
    then Some ErrZeroValues
    else if decide (v1.Threshold cfg > total) then Some ErrThreshold
    else if decide (v1.Quorum cfg > total) then Some ErrQuorum
    else None.
Proof.
  intros Ht Hq. unfold validateConfig. rewrite !uint64_id by done.
  destruct (Z.eqb_spec (v1.Threshold cfg) 0), (Z.eqb_spec (v1.Quorum cfg) 0),
    (Z.eqb_spec (v1.VotingPeriod cfg) 0); simpl;
    (case_decide as Hz; [try done|try (destruct Hz; by auto)]);
    try (destruct Hz as [?|[?|?]]; done).
  destruct (Z.ltb_spec total (v1.Threshold cfg)),
    (Z.ltb_spec total (v1.Quorum cfg));
    repeat case_decide; try done; lia.
Qed.

(** ** Authenticate *)

(** C4: Authenticate succeeds unconditionally: whatever the message (of any
    type) and the store, it returns the response with a nil error and the
    store it was given. *)
Theorem Authenticate_always_succeeds {MsgAuthenticate : Type} (a : Account)
    (msg : MsgAuthenticate) (ctx : Store) :
  Authenticate a msg ctx = (ctx, Ok mkMsgAuthenticateResponse).
Proof. reflexivity. Qed.

(** ** Init *)

(** The first check of [Init]. *)
Lemma Init_lengths_differ (a : Account) (msg : v1.MsgInit) (ctx : Store) :
  length (v1.PubKeys msg) ≠ length (v1.Weights msg) →
  Init a msg ctx = (ctx, Err ErrKeysWeights).
Proof.
  intros Hlen. unfold Init.
  by destruct (Nat.eqb_spec (length (v1.PubKeys msg)) (length (v1.Weights msg))).
Qed.

(** C10: when the identities and the weights differ in number, Init fails
    with the error for unequal lists and hands back the store untouched. *)
Theorem Init_length_mismatch (a : Account) (msg : v1.MsgInit) (ctx : Store) :
  length (v1.PubKeys msg) ≠ length (v1.Weights msg) →
  Init a msg ctx = (ctx, Err ErrKeysWeights).
Proof.
  intros Hlen. unfold Init.
  destruct (Nat.eqb_spec (length (v1.PubKeys msg)) (length (v1.Weights msg)))
    as [Heq|_]; [by destruct Hlen|].
  reflexivity.
Qed.

Lemma Init_length_mismatch_witness :
  Init account0 (v1.mkMsgInit [alice; bob] [1] (Some (v1.mkConfig 1 1 1 "default" false)))
       emptyStore
  = (emptyStore, Err ErrKeysWeights).
Proof. apply Init_length_mismatch. simpl. lia. Defined.

(** The loop over the custom algorithms finds [algo] exactly when it is one
    of the names. *)
Lemma findAlgo_true (algo : string) (names acc : list string) :
  (findAlgo algo names acc).1 = true ↔ algo ∈ names.
Proof.
  revert acc. induction names as [|i names IH]; intros acc; simpl.
  - split; [done | by intros ?%elem_of_nil].
  - destruct (String.eqb_spec algo i) as [->|Hne]; simpl.
    + split; [intros _; apply list_elem_of_here | done].
    + rewrite IH. split; [apply list_elem_of_further |].
      intros [?|?]%elem_of_cons; [congruence | done].
Qed.

Lemma findAlgo_supported (a : Account) (algo : string) (acc : list string) :
  is_Some (customAlgos a !! algo) →
  (findAlgo algo (map_to_list (customAlgos a)).*1 acc).1 = true.
Proof.
  intros [h Hh]. apply findAlgo_true, list_elem_of_fmap.
  exists (algo, h). split; [done | by apply elem_of_map_to_list].
Qed.

Lemma setAll_snoc (kvs : list (list byte * Z)) (k : list byte) (w : Z)
    (m : gmap (list byte) Z) :
  setAll (kvs ++ [(k, w)]) m = <[k := w]> (setAll kvs m).
Proof. unfold setAll. by rewrite foldl_app. Qed.

(** With as many weights as keys, the loop sets every pair and cannot fail. *)
Lemma setParticipants_eq (PubKeys : list (list byte)) (Weights : list Z) (ctx : Store) :
  length PubKeys = length Weights →
  setParticipants PubKeys Weights ctx =
    (mkStore (setAll (zip PubKeys Weights) (Members ctx)) (Sequence ctx)
             (Config ctx) (Proposals ctx) (Votes ctx), Ok tt).
Proof.
  revert Weights ctx.
  induction PubKeys as [|pk PubKeys IH]; intros [|w Weights] ctx Hlen;
    simplify_eq/=.
  - by destruct ctx.
  - run. by rewrite IH.
Qed.

(** A key that is not set keeps its entry. *)
Lemma setAll_lookup_other (kvs : list (list byte * Z)) (m : gmap (list byte) Z)
    (k : list byte) :
  k ∉ kvs.*1 → setAll kvs m !! k = m !! k.
Proof.
  revert m. induction kvs as [|[k' w] kvs IH]; intros m Hk; [done|].
  apply not_elem_of_cons in Hk as [Hne Hk]. simpl in *.
  change (setAll kvs (<[k' := w]> m) !! k = m !! k).
  rewrite IH by done. by rewrite lookup_insert_ne.
Qed.

(** A key that is set holds the weight of its last occurrence. *)
Lemma setAll_lookup_last (kvs1 kvs2 : list (list byte * Z)) (m : gmap (list byte) Z)
    (k : list byte) (w : Z) :
  k ∉ kvs2.*1 → setAll (kvs1 ++ (k, w) :: kvs2) m !! k = Some w.
Proof.
  intros Hk. unfold setAll. rewrite foldl_app. simpl.
  change (setAll kvs2 (<[k := w]> (setAll kvs1 m)) !! k = Some w).
  rewrite setAll_lookup_other by done. apply lookup_insert_eq.
Qed.

(** Every key that is set has an entry afterwards. *)
Lemma setAll_lookup_is_Some (kvs : list (list byte * Z)) (m : gmap (list byte) Z)
    (k : list byte) :
  k ∈ kvs.*1 → is_Some (setAll kvs m !! k).
Proof.
  induction kvs as [|[k' w] kvs IH] using rev_ind; [by intros ?%elem_of_nil|].
  rewrite fmap_app, elem_of_app, setAll_snoc. simpl. intros Hk.
  destruct (decide (k = k')) as [->|Hne].
  - rewrite lookup_insert_eq. by eexists.
  - rewrite lookup_insert_ne by done. apply IH.
    destruct Hk as [?|Hk]; [done|]. by apply list_elem_of_singleton in Hk.
Qed.

(** [Init] on lists of equal length, a configuration that is there and a
    supported algorithm: the pairs are set, then the configuration is
    validated against the total of the weights list. *)
Lemma Init_supported (a : Account) (msg : v1.MsgInit) (ctx : Store) (cfg : v1.Config) :
  length (v1.PubKeys msg) = length (v1.Weights msg) →
  v1.InitConfig msg = Some cfg →
  isSupportedAlgo a (v1.Algo cfg) →
  Init a msg ctx =
    (mkStore (setAll (zip (v1.PubKeys msg) (v1.Weights msg)) (Members ctx))
             (Sequence ctx) (Config ctx) (Proposals ctx) (Votes ctx),
     match validateConfig cfg (totalWeight (v1.Weights msg)) with
     | Some err => Err err
     | None => Ok v1.mkMsgInitResponse
     end).
Proof.
  intros Hlen Hcfg Halgo. unfold Init. rewrite Hlen, Nat.eqb_refl, Hcfg. simpl.
  assert ((if String.eqb (v1.Algo cfg) DefaultSigningAlgo
           then (true, [DefaultSigningAlgo])
           else findAlgo (v1.Algo cfg) (map_to_list (customAlgos a)).*1
                         [DefaultSigningAlgo]).1 = true) as Hvalid.
  { destruct (String.eqb_spec (v1.Algo cfg) DefaultSigningAlgo) as [|Hne]; [done|].
    destruct Halgo as [?|?]; [done|]. by apply findAlgo_supported. }
  destruct (if String.eqb _ _ then _ else _) as [isValidAlgo supported].
  simpl in Hvalid. subst isValidAlgo. simpl. run.
  rewrite setParticipants_eq by done.
  by destruct (validateConfig cfg (totalWeight (v1.Weights msg))).
Qed.

(** [Init] on an algorithm that is not supported: nothing is written. *)
Lemma Init_unsupported (a : Account) (msg : v1.MsgInit) (ctx : Store) (cfg : v1.Config) :
  v1.InitConfig msg = Some cfg →
  ¬ isSupportedAlgo a (v1.Algo cfg) →
  ∃ err, Init a msg ctx = (ctx, Err err).
Proof.
  intros Hcfg Halgo. unfold Init.
  destruct (negb _); [by eexists|]. rewrite Hcfg.
  assert ((if String.eqb (v1.Algo cfg) DefaultSigningAlgo
           then (true, [DefaultSigningAlgo])
           else findAlgo (v1.Algo cfg) (map_to_list (customAlgos a)).*1
                         [DefaultSigningAlgo]).1 = false) as Hvalid.
  { destruct (String.eqb_spec (v1.Algo cfg) DefaultSigningAlgo) as [Heq|Hne].
    - destruct Halgo. by left.
    - apply not_true_is_false. intros Hin%findAlgo_true.
      apply list_elem_of_fmap in Hin as ([k h] & Hk & Hin%elem_of_map_to_list).
      destruct Halgo. right. rewrite Hk. by eexists. }
  destruct (if String.eqb _ _ then _ else _) as [isValidAlgo supported].
  simpl in Hvalid. subst isValidAlgo. by eexists.
Qed.

(** What [Init] hands back when the configuration fails validation: an
    error, with the configuration, the proposals, the votes and the
    sequence as given; the registry of the working store has the pairs set
    by then, since the members are set before the configuration is
    validated. *)
Lemma Init_invalid_config_working_store (a : Account) (msg : v1.MsgInit) (ctx : Store)
    (cfg : v1.Config) (err : error) :
  v1.InitConfig msg = Some cfg →
  validateConfig cfg (totalWeight (v1.Weights msg)) = Some err →
  let after := (Init a msg ctx).1 in
  (∃ e, (Init a msg ctx).2 = Err e) ∧
  Sequence after = Sequence ctx ∧ Config after = Config ctx ∧
  Proposals after = Proposals ctx ∧ Votes after = Votes ctx ∧
  (length (v1.PubKeys msg) = length (v1.Weights msg) →
   isSupportedAlgo a (v1.Algo cfg) →
     (Init a msg ctx).2 = Err err ∧
     Members after = setAll (zip (v1.PubKeys msg) (v1.Weights msg)) (Members ctx) ∧
     ∀ pk, pk ∈ v1.PubKeys msg → is_Some (Members after !! pk)).
Proof.
  intros Hcfg Hval after. subst after.
  destruct (decide (length (v1.PubKeys msg) = length (v1.Weights msg))) as [Hlen|Hlen].
  - assert (Decision (isSupportedAlgo a (v1.Algo cfg))) as [Halgo|Halgo]
      by (unfold isSupportedAlgo; apply _).
    + rewrite (Init_supported a msg ctx cfg Hlen Hcfg Halgo), Hval. simpl.
      repeat split; try done; [by eexists|].
      intros pk Hpk. apply setAll_lookup_is_Some. by rewrite fst_zip by lia.
    + destruct (Init_unsupported a msg ctx cfg Hcfg Halgo) as [e ->]. simpl.
      repeat split; try done. by eexists.
  - rewrite (Init_lengths_differ a msg ctx Hlen). simpl.
    repeat split; try done. by eexists.
Qed.

(** C1: for every Init input whose configuration fails Config Validation,
    Init returns an error and, under the host's transaction, no partial
    state is committed: the committed store is the one from before the
    call, so that no pair set during that Init is observable in the Member
    Registry afterwards. *)
Theorem Init_invalid_config_commits_nothing (a : Account) (msg : v1.MsgInit)
    (ctx : Store) (cfg : v1.Config) (err : error) :
  v1.InitConfig msg = Some cfg →
  validateConfig cfg (totalWeight (v1.Weights msg)) = Some err →
  (∃ e, (Init a msg ctx).2 = Err e ∧ atomically (Init a msg) ctx = (ctx, Err e)) ∧
  ∀ pk, Members (atomically (Init a msg) ctx).1 !! pk = Members ctx !! pk.
Proof.
  intros Hcfg Hval.
  destruct (Init_invalid_config_working_store a msg ctx cfg err Hcfg Hval)
    as ([e He] & _).
  assert (atomically (Init a msg) ctx = (ctx, Err e)) as Hcommit.
  { unfold atomically. destruct (Init a msg ctx) as [working o].
    simpl in He. by subst o. }
  split; [by exists e | by rewrite Hcommit].
Qed.

(** One member of weight 1 under a threshold of 2: the working store of
    Init holds the pair, the committed store does not. *)
Lemma Init_invalid_config_commits_nothing_witness :
  Members (Init account0 initThreshold2 emptyStore).1 !! alice = Some 1 ∧
  (∃ e, (Init account0 initThreshold2 emptyStore).2 = Err e ∧
        atomically (Init account0 initThreshold2) emptyStore = (emptyStore, Err e)) ∧
  ∀ pk, Members (atomically (Init account0 initThreshold2) emptyStore).1 !! pk
        = Members emptyStore !! pk.
Proof.
  split; [reflexivity|].
  exact (Init_invalid_config_commits_nothing account0 initThreshold2 emptyStore
           (v1.mkConfig 2 1 1 "default" false) ErrThreshold eq_refl eq_refl).
Defined.

(** C7: on lists of equal length and a supported algorithm, the outcome of
    Init is that of Config Validation against the sum of the weights list
    modulo 2^64, whereas the registry holds, for each identity, only the
    weight of its last occurrence in the input. *)
Theorem Init_validates_wrapped_list_total (a : Account) (msg : v1.MsgInit)
    (ctx : Store) (cfg : v1.Config) :
  length (v1.PubKeys msg) = length (v1.Weights msg) →
  v1.InitConfig msg = Some cfg →
  isSupportedAlgo a (v1.Algo cfg) →
  let after := (Init a msg ctx).1 in
  (Init a msg ctx).2 =
    match validateConfig cfg (foldr Z.add 0 (v1.Weights msg) mod two64) with
    | Some err => Err err
    | None => Ok v1.mkMsgInitResponse
    end ∧
  (∀ kvs1 kvs2 pk w,
     zip (v1.PubKeys msg) (v1.Weights msg) = kvs1 ++ (pk, w) :: kvs2 →
     pk ∉ kvs2.*1 →
     Members after !! pk = Some w) ∧
  (∀ pk, pk ∉ v1.PubKeys msg → Members after !! pk = Members ctx !! pk).
Proof.
  intros Hlen Hcfg Halgo after. subst after.
  rewrite (Init_supported a msg ctx cfg Hlen Hcfg Halgo), totalWeight_sum. simpl.
  split; [done|]. split.
  - intros kvs1 kvs2 pk w -> Hlast. by apply setAll_lookup_last.
  - intros pk Hpk. apply setAll_lookup_other. by rewrite fst_zip by lia.
Qed.

(** The identity [alice] listed twice with weight 1 under threshold and
    quorum 2: Init succeeds, since the list adds up to 2, although the
    registry it leaves holds a total weight of 1. *)
Lemma Init_validates_wrapped_list_total_witness :
  (Init account0 initDuplicate emptyStore).2 = Ok v1.mkMsgInitResponse ∧
  Members (Init account0 initDuplicate emptyStore).1 !! alice = Some 1 ∧
  storedWeight (Members (Init account0 initDuplicate emptyStore).1) = 1 ∧
  validateConfig (v1.mkConfig 2 2 1 "default" false) 1 = Some ErrThreshold.
Proof.
  destruct (Init_validates_wrapped_list_total account0 initDuplicate emptyStore
              (v1.mkConfig 2 2 1 "default" false) eq_refl eq_refl (or_introl eq_refl))
    as (Hresult & Hlast & _).
  split; [exact Hresult|].
  split; [exact (Hlast [(alice, 1)] [] alice 1 eq_refl (not_elem_of_nil alice))|].
  split; reflexivity.
Defined.

(** Weights 2^64 - 1 and 2 under threshold 2: the true sum is 2^64 + 1, the
    total Init validates against is 1, and Init fails on the threshold. *)
Example Init_overflow_example :
  foldr Z.add 0 (v1.Weights initOverflow) = two64 + 1 ∧
  totalWeight (v1.Weights initOverflow) = 1 ∧
  (Init account0 initOverflow emptyStore).2 = Err ErrThreshold ∧
  storedWeight (Members (Init account0 initOverflow emptyStore).1) = two64 + 1.
Proof. by vm_compute. Qed.

(** ** Vote *)

(** Under a configured algorithm that is neither the default nor a key of
    [a.customAlgos], the handler looked up is nil and the call through it
    panics, whatever the store and the message. *)
Lemma Vote_nil_handler (a : Account) (msg : v1.MsgVote) (ctx : Store) (cfg : v1.Config) :
  Config ctx = Some cfg →
  v1.Algo cfg ≠ DefaultSigningAlgo →
  customAlgos a !! v1.Algo cfg = None →
  Vote a msg ctx = (ctx, Panic).
Proof.
  intros Hcfg Halgo Hnil. unfold Vote, voterBz. run. rewrite Hcfg.
  destruct (String.eqb_spec (v1.Algo cfg) DefaultSigningAlgo); [done|].
  by rewrite Hnil.
Qed.

(** C2 (the code departs from it): the stored configuration names the
    algorithm "bls", the account has no handler under that name, and Vote
    ends in a panic instead of returning an error. *)
Theorem Vote_unknown_algorithm_panics :
  Vote account0 (voteOf "alice" 7 true) (store1 "bls" false v1.Active ∅)
  = (store1 "bls" false v1.Active ∅, Panic).
Proof. by apply (Vote_nil_handler _ _ _ (v1.mkConfig 1 1 1 "bls" false)). Qed.

(** C8: a voter without an entry in the Member Registry gets the not-found
    error of the registry, and the store is left as it was.  Nothing is
    assumed of the proposal: the registry is asked first. *)
Theorem Vote_not_a_member (a : Account) (msg : v1.MsgVote) (ctx : Store)
    (cfg : v1.Config) (voter : list byte) :
  Config ctx = Some cfg →
  (voterBz a cfg msg ctx).2 = Ok voter →
  Members ctx !! voter = None →
  Vote a msg ctx = (ctx, Err (ErrNotFound "participants")).
Proof.
  intros Hcfg Hvoter Hmember.
  by rewrite (Vote_resolved a msg ctx cfg voter Hcfg Hvoter), Hmember.
Qed.

(** [bob] is not a member: the error is the same for proposal 7, which
    exists, and for proposal 8, which does not. *)
Lemma Vote_not_a_member_witness :
  Vote account0 (voteOf "bob" 7 true) (store1 "default" false v1.Active ∅)
  = (store1 "default" false v1.Active ∅, Err (ErrNotFound "participants")) ∧
  Vote account0 (voteOf "bob" 8 true) (store1 "default" false v1.Active ∅)
  = (store1 "default" false v1.Active ∅, Err (ErrNotFound "participants")).
Proof.
  split.
  - apply (Vote_not_a_member account0 (voteOf "bob" 7 true) _
             (v1.mkConfig 1 1 1 "default" false) bob); reflexivity.
  - apply (Vote_not_a_member account0 (voteOf "bob" 8 true) _
             (v1.mkConfig 1 1 1 "default" false) bob); reflexivity.
Defined.

(** C9: a member who votes on a proposal id without an entry in the
    Proposal Ledger gets the not-found error of the ledger, and the store,
    with its votes, is left as it was. *)
Theorem Vote_proposal_not_found (a : Account) (msg : v1.MsgVote) (ctx : Store)
    (cfg : v1.Config) (voter : list byte) (weight : Z) :
  Config ctx = Some cfg →
  (voterBz a cfg msg ctx).2 = Ok voter →
  Members ctx !! voter = Some weight →
  Proposals ctx !! v1.ProposalId msg = None →
  Vote a msg ctx = (ctx, Err (ErrNotFound "proposals")).
Proof.
  intros Hcfg Hvoter Hmember Hproposal.
  by rewrite (Vote_resolved a msg ctx cfg voter Hcfg Hvoter), Hmember, Hproposal.
Qed.

Lemma Vote_proposal_not_found_witness :
  Vote account0 (voteOf "alice" 8 true) (store1 "default" false v1.Active ∅)
  = (store1 "default" false v1.Active ∅, Err (ErrNotFound "proposals")).
Proof.
  apply (Vote_proposal_not_found account0 (voteOf "alice" 8 true) _
           (v1.mkConfig 1 1 1 "default" false) alice 1); reflexivity.
Defined.

(** C3, as stated, fails: proposal 7 is Passed, Rejected or Expired, the
    member [alice] votes on it, and Vote succeeds and records the vote. *)
Lemma Vote_terminal_proposal_counterexample :
  Vote account0 (voteOf "alice" 7 true) (store1 "default" false v1.Passed ∅)
  = (store1 "default" false v1.Passed {[ (7, alice) := true ]},
     Ok v1.mkMsgVoteResponse) ∧
  Vote account0 (voteOf "alice" 7 true) (store1 "default" false v1.Rejected ∅)
  = (store1 "default" false v1.Rejected {[ (7, alice) := true ]},
     Ok v1.mkMsgVoteResponse) ∧
  Vote account0 (voteOf "alice" 7 true) (store1 "default" false v1.Expired ∅)
  = (store1 "default" false v1.Expired {[ (7, alice) := true ]},
     Ok v1.mkMsgVoteResponse).
Proof. by vm_compute. Qed.

(** C3 (amended): for a current member and a proposal that exists, in
    whatever status, Vote does not look at the status: it fails with the
    already-voted error when the member has a stored vote and revote is
    off, and otherwise succeeds and records the vote. *)
Theorem Vote_ignores_proposal_status (a : Account) (msg : v1.MsgVote) (ctx : Store)
    (cfg : v1.Config) (voter : list byte) (weight : Z) (p : v1.Proposal) :
  Config ctx = Some cfg →
  (voterBz a cfg msg ctx).2 = Ok voter →
  Members ctx !! voter = Some weight →
  Proposals ctx !! v1.ProposalId msg = Some p →
  Vote a msg ctx =
    if bool_decide (is_Some (Votes ctx !! (v1.ProposalId msg, voter)))
       && negb (v1.Revote cfg)
    then (ctx, Err ErrAlreadyVoted)
    else (mkStore (Members ctx) (Sequence ctx) (Config ctx) (Proposals ctx)
                  (<[(v1.ProposalId msg, voter) := v1.Vote msg]> (Votes ctx)),
          Ok v1.mkMsgVoteResponse).
Proof.
  intros Hcfg Hvoter Hmember Hproposal.
  by rewrite (Vote_resolved a msg ctx cfg voter Hcfg Hvoter), Hmember, Hproposal.
Qed.

Lemma Vote_ignores_proposal_status_witness :
  Vote account0 (voteOf "alice" 7 false) (store1 "default" false v1.Rejected ∅)
  = (store1 "default" false v1.Rejected {[ (7, alice) := false ]},
     Ok v1.mkMsgVoteResponse).
Proof.
  rewrite (Vote_ignores_proposal_status account0 (voteOf "alice" 7 false)
             (store1 "default" false v1.Rejected ∅)
             (v1.mkConfig 1 1 1 "default" false) alice 1
             (v1.mkProposal [] 0 v1.Rejected) eq_refl eq_refl eq_refl eq_refl).
  reflexivity.
Defined.

(** C5: a member with a stored vote on a proposal votes again.  With revote
    off, Vote fails with the already-voted error and the store, with the
    stored vote, is as before; with revote on, Vote succeeds and the vote
    stored under that proposal and voter is the new one. *)
Theorem Vote_again (a : Account) (msg : v1.MsgVote) (ctx : Store)
    (cfg : v1.Config) (voter : list byte) (weight : Z) (p : v1.Proposal)
    (old : bool) :
  Config ctx = Some cfg →
  (voterBz a cfg msg ctx).2 = Ok voter →
  Members ctx !! voter = Some weight →
  Proposals ctx !! v1.ProposalId msg = Some p →
  Votes ctx !! (v1.ProposalId msg, voter) = Some old →
  (v1.Revote cfg = false →
     Vote a msg ctx = (ctx, Err ErrAlreadyVoted) ∧
     Votes (Vote a msg ctx).1 !! (v1.ProposalId msg, voter) = Some old) ∧
  (v1.Revote cfg = true →
     (Vote a msg ctx).2 = Ok v1.mkMsgVoteResponse ∧
     Votes (Vote a msg ctx).1 !! (v1.ProposalId msg, voter) = Some (v1.Vote msg)).
Proof.
  intros Hcfg Hvoter Hmember Hproposal Hold.
  rewrite (Vote_resolved a msg ctx cfg voter Hcfg Hvoter), Hmember, Hproposal, Hold.
  split; intros ->; simpl; [done|].
  split; [done | apply lookup_insert_eq].
Qed.

(** [alice] has approved proposal 7 and now rejects it: refused with revote
    off, and the approval stands; accepted with revote on, and the stored
    vote is the rejection. *)
Lemma Vote_again_witness :
  (Vote account0 (voteOf "alice" 7 false)
        (store1 "default" false v1.Active {[ (7, alice) := true ]})
   = (store1 "default" false v1.Active {[ (7, alice) := true ]}, Err ErrAlreadyVoted) ∧
   Votes (Vote account0 (voteOf "alice" 7 false)
            (store1 "default" false v1.Active {[ (7, alice) := true ]})).1
     !! (7, alice) = Some true) ∧
  ((Vote account0 (voteOf "alice" 7 false)
         (store1 "default" true v1.Active {[ (7, alice) := true ]})).2
   = Ok v1.mkMsgVoteResponse ∧
   Votes (Vote account0 (voteOf "alice" 7 false)
            (store1 "default" true v1.Active {[ (7, alice) := true ]})).1
     !! (7, alice) = Some false).
Proof.
  split.
  - apply (Vote_again account0 (voteOf "alice" 7 false)
             (store1 "default" false v1.Active {[ (7, alice) := true ]})
             (v1.mkConfig 1 1 1 "default" false) alice 1
             (v1.mkProposal [] 0 v1.Active) true); reflexivity.
  - apply (Vote_again account0 (voteOf "alice" 7 false)
             (store1 "default" true v1.Active {[ (7, alice) := true ]})
             (v1.mkConfig 1 1 1 "default" true) alice 1
             (v1.mkProposal [] 0 v1.Active) true); reflexivity.
Defined.

(** * Further properties of account.go *)

(** ** Init, on every path *)

(** The loop over the custom algorithms, when [algo] is none of the names,
    has appended them all. *)
Lemma findAlgo_false (algo : string) (names acc : list string) :
  algo ∉ names → findAlgo algo names acc = (false, acc ++ names).
Proof.
  revert acc. induction names as [|i names IH]; intros acc Hnot; simpl.
  - by rewrite app_nil_r.
  - apply not_elem_of_cons in Hnot as [Hne Hnot].
    destruct (String.eqb_spec algo i); [done|].
    by rewrite IH, <- app_assoc.
Qed.

Lemma Init_no_config (a : Account) (msg : v1.MsgInit) (ctx : Store) :
  length (v1.PubKeys msg) = length (v1.Weights msg) →
  v1.InitConfig msg = None →
  Init a msg ctx = (ctx, Panic).
Proof. intros Hlen Hcfg. unfold Init. by rewrite Hlen, Nat.eqb_refl, Hcfg. Qed.

(** Whatever the input, [Init] hands back the sequence, the configuration,
    the proposals and the votes it was given. *)
Lemma Init_others_kept (a : Account) (msg : v1.MsgInit) (ctx : Store) :
  Sequence (Init a msg ctx).1 = Sequence ctx ∧
  Config (Init a msg ctx).1 = Config ctx ∧
  Proposals (Init a msg ctx).1 = Proposals ctx ∧
  Votes (Init a msg ctx).1 = Votes ctx.
Proof.
  destruct (decide (length (v1.PubKeys msg) = length (v1.Weights msg))) as [Hlen|Hlen];
    [|by rewrite (Init_lengths_differ a msg ctx Hlen)].
  destruct (v1.InitConfig msg) as [cfg|] eqn:Hcfg;
    [|by rewrite (Init_no_config a msg ctx Hlen Hcfg)].
  assert (Decision (isSupportedAlgo a (v1.Algo cfg))) as [Halgo|Halgo]
    by (unfold isSupportedAlgo; apply _).
  - by rewrite (Init_supported a msg ctx cfg Hlen Hcfg Halgo).
  - by destruct (Init_unsupported a msg ctx cfg Hcfg Halgo) as [e ->].
Qed.

(** X1: Init writes to the Member Registry only, and there only under the
    identities of its input: on every input and every path it leaves the
    sequence, the configuration, the proposals and the votes as they were,
    and the registry entry of every identity that is not in the input. *)
Theorem Init_writes_only_input_members (a : Account) (msg : v1.MsgInit) (ctx : Store) :
  Sequence (Init a msg ctx).1 = Sequence ctx ∧
  Config (Init a msg ctx).1 = Config ctx ∧
  Proposals (Init a msg ctx).1 = Proposals ctx ∧
  Votes (Init a msg ctx).1 = Votes ctx ∧
  ∀ pk, pk ∉ v1.PubKeys msg →
        Members (Init a msg ctx).1 !! pk = Members ctx !! pk.
Proof.
  destruct (Init_others_kept a msg ctx) as (Hs & Hc & Hp & Hv).
  repeat split; try done. intros pk Hpk.
  destruct (decide (length (v1.PubKeys msg) = length (v1.Weights msg))) as [Hlen|Hlen];
    [|by rewrite (Init_lengths_differ a msg ctx Hlen)].
  destruct (v1.InitConfig msg) as [cfg|] eqn:Hcfg;
    [|by rewrite (Init_no_config a msg ctx Hlen Hcfg)].
  assert (Decision (isSupportedAlgo a (v1.Algo cfg))) as [Halgo|Halgo]
    by (unfold isSupportedAlgo; apply _).
  - rewrite (Init_supported a msg ctx cfg Hlen Hcfg Halgo). simpl.
    apply setAll_lookup_other. by rewrite fst_zip by lia.
  - by destruct (Init_unsupported a msg ctx cfg Hcfg Halgo) as [e ->].
Qed.

(** X2: Init succeeds exactly when the lists have equal length, the
    configuration is there, its algorithm is the default or a custom one of
    the account, and the configuration is valid for the total of the
    weights list. *)
Theorem Init_succeeds_iff (a : Account) (msg : v1.MsgInit) (ctx : Store) :
  (Init a msg ctx).2 = Ok v1.mkMsgInitResponse ↔
  length (v1.PubKeys msg) = length (v1.Weights msg) ∧
  ∃ cfg, v1.InitConfig msg = Some cfg ∧
         isSupportedAlgo a (v1.Algo cfg) ∧
         validateConfig cfg (totalWeight (v1.Weights msg)) = None.
Proof.
  split.
  - intros Hok.
    destruct (decide (length (v1.PubKeys msg) = length (v1.Weights msg))) as [Hlen|Hlen];
      [|by rewrite (Init_lengths_differ a msg ctx Hlen) in Hok].
    destruct (v1.InitConfig msg) as [cfg|] eqn:Hcfg;
      [|by rewrite (Init_no_config a msg ctx Hlen Hcfg) in Hok].
    assert (Decision (isSupportedAlgo a (v1.Algo cfg))) as [Halgo|Halgo]
      by (unfold isSupportedAlgo; apply _).
    + rewrite (Init_supported a msg ctx cfg Hlen Hcfg Halgo) in Hok. simpl in Hok.
      split; [done|]. exists cfg. repeat split; try done.
      by destruct (validateConfig cfg (totalWeight (v1.Weights msg))).
    + by destruct (Init_unsupported a msg ctx cfg Hcfg Halgo) as [e He];
        rewrite He in Hok.
  - intros (Hlen & cfg & Hcfg & Halgo & Hvalid).
    by rewrite (Init_supported a msg ctx cfg Hlen Hcfg Halgo), Hvalid.
Qed.

(** X3: a message without a configuration (the pointer is nil) makes Init
    panic once the lengths agree, and fail on the lengths otherwise; either
    way nothing is written. *)
Theorem Init_nil_config (a : Account) (msg : v1.MsgInit) (ctx : Store) :
  v1.InitConfig msg = None →
  Init a msg ctx =
    (ctx, if decide (length (v1.PubKeys msg) = length (v1.Weights msg))
          then Panic else Err ErrKeysWeights).
Proof.
  intros Hcfg. unfold Init. case_decide as Hlen.
  - by rewrite Hlen, Nat.eqb_refl, Hcfg.
  - by destruct (Nat.eqb_spec (length (v1.PubKeys msg)) (length (v1.Weights msg))).
Qed.

Lemma Init_nil_config_witness :
  Init account0 (v1.mkMsgInit [alice] [1] None) emptyStore = (emptyStore, Panic) ∧
  Init account0 (v1.mkMsgInit [alice] [] None) emptyStore
  = (emptyStore, Err ErrKeysWeights).
Proof.
  split.
  - exact (Init_nil_config account0 (v1.mkMsgInit [alice] [1] None) emptyStore eq_refl).
  - exact (Init_nil_config account0 (v1.mkMsgInit [alice] [] None) emptyStore eq_refl).
Defined.

(** The order in which the custom algorithms are visited decides neither
    whether [algo] is found nor which names are listed when it is not: only
    the order of the list. *)
Lemma findAlgo_order (algo : string) (names names' acc : list string) :
  names ≡ₚ names' →
  (findAlgo algo names' acc).1 = (findAlgo algo names acc).1 ∧
  ((findAlgo algo names acc).1 = false →
   (findAlgo algo names acc).2 = acc ++ names ∧
   (findAlgo algo names' acc).2 = acc ++ names').
Proof.
  intros Hperm.
  assert ((findAlgo algo names' acc).1 = (findAlgo algo names acc).1) as Hfst.
  { destruct (findAlgo algo names acc).1 eqn:Hfound.
    - apply findAlgo_true. rewrite <- Hperm. by apply (findAlgo_true algo names acc).
    - apply not_true_is_false. intros Hin%findAlgo_true.
      rewrite <- Hperm in Hin. apply (findAlgo_true algo names acc) in Hin.
      congruence. }
  split; [done|]. intros Hnot.
  assert (algo ∉ names) as Hnames
    by (intros Hin%(findAlgo_true algo names acc); congruence).
  rewrite !findAlgo_false; [done| by rewrite <- Hperm |done].
Qed.

(** X4: an algorithm that is neither the default nor a custom one of the
    account is refused before anything is written; the error names the
    algorithm and lists the default followed by the custom names, each
    once, in the order of the range over the map, which is left open. *)
Theorem Init_unsupported_algo (a : Account) (msg : v1.MsgInit) (ctx : Store)
    (cfg : v1.Config) :
  length (v1.PubKeys msg) = length (v1.Weights msg) →
  v1.InitConfig msg = Some cfg →
  ¬ isSupportedAlgo a (v1.Algo cfg) →
  ∃ names,
    NoDup names ∧
    (∀ name, name ∈ names ↔ is_Some (customAlgos a !! name)) ∧
    Init a msg ctx =
      (ctx, Err (ErrUnsupportedAlgo (v1.Algo cfg) (DefaultSigningAlgo :: names))).
Proof.
  intros Hlen Hcfg Halgo. exists (map_to_list (customAlgos a)).*1.
  split; [apply NoDup_fst_map_to_list|]. split.
  - intros name. rewrite list_elem_of_fmap. split.
    + intros ([k h] & -> & Hin%elem_of_map_to_list). by eexists.
    + intros [h Hh]. exists (name, h). split; [done|]. by apply elem_of_map_to_list.
  - unfold Init. rewrite Hlen, Nat.eqb_refl, Hcfg. simpl.
    destruct (String.eqb_spec (v1.Algo cfg) DefaultSigningAlgo) as [Heq|Hne];
      [destruct Halgo; by left|].
    rewrite findAlgo_false; [done|].
    intros ([k h] & Hk & Hin%elem_of_map_to_list)%list_elem_of_fmap.
    destruct Halgo. right. rewrite Hk. by eexists.
Qed.

(** An account with the custom algorithms "bls" and "rsa" is asked for
    "ed25519". *)
Lemma Init_unsupported_algo_witness :
  ∃ names,
    NoDup names ∧
    (∀ name, name ∈ names ↔ is_Some (customAlgos account2 !! name)) ∧
    Init account2
         (v1.mkMsgInit [alice] [1] (Some (v1.mkConfig 1 1 1 "ed25519" false)))
         emptyStore
    = (emptyStore, Err (ErrUnsupportedAlgo "ed25519" (DefaultSigningAlgo :: names))).
Proof.
  refine (Init_unsupported_algo account2
            (v1.mkMsgInit [alice] [1] (Some (v1.mkConfig 1 1 1 "ed25519" false)))
            emptyStore (v1.mkConfig 1 1 1 "ed25519" false) eq_refl eq_refl _).
  intros [Heq|[h Hh]]; [discriminate Heq | vm_compute in Hh; discriminate Hh].
Defined.

(** ** NewAccount *)

(** X5: NewAccount does not pass [opts.CustomAlgorithms] on to the account:
    whatever the options, the account it builds has no custom algorithm, so
    its Init refuses every algorithm but the default, naming the default as
    the only one supported, and its Vote panics under every stored
    configuration with another algorithm. *)
Theorem NewAccount_without_custom_algorithms {HandlerMap : Type} (name : string)
    (handlerMap : HandlerMap) (opts : Options) (deps : Dependencies)
    (cfg : v1.Config) (ctx : Store) :
  v1.Algo cfg ≠ DefaultSigningAlgo →
  (∀ msg, length (v1.PubKeys msg) = length (v1.Weights msg) →
          v1.InitConfig msg = Some cfg →
          Init (NewAccount name handlerMap opts deps).2 msg ctx
          = (ctx, Err (ErrUnsupportedAlgo (v1.Algo cfg) [DefaultSigningAlgo]))) ∧
  (∀ msg, Config ctx = Some cfg →
          Vote (NewAccount name handlerMap opts deps).2 msg ctx = (ctx, Panic)).
Proof.
  intros Halgo. split.
  - intros msg Hlen Hcfg. unfold Init. rewrite Hlen, Nat.eqb_refl, Hcfg. simpl.
    destruct (String.eqb_spec (v1.Algo cfg) DefaultSigningAlgo); [done|].
    by rewrite map_to_list_empty.
  - intros msg Hcfg. by apply (Vote_nil_handler _ _ _ cfg).
Qed.

(** The options offer "bls", and yet a configuration under "bls" is refused
    by Init and makes Vote panic. *)
Lemma NewAccount_without_custom_algorithms_witness :
  Init (NewAccount "multisig" tt (mkOptions {[ "bls" := echoHandler ]})
          (mkDependencies (addrCodec_StringToBytes account0))).2
       (v1.mkMsgInit [alice] [1] (Some (v1.mkConfig 1 1 1 "bls" false))) emptyStore
  = (emptyStore, Err (ErrUnsupportedAlgo "bls" ["default"])) ∧
  Vote (NewAccount "multisig" tt (mkOptions {[ "bls" := echoHandler ]})
          (mkDependencies (addrCodec_StringToBytes account0))).2
       (v1.mkMsgVote "alice" alice 7 true) (store1 "bls" false v1.Active ∅)
  = (store1 "bls" false v1.Active ∅, Panic).
Proof.
  split.
  - refine (proj1 (NewAccount_without_custom_algorithms "multisig" tt
                     (mkOptions {[ "bls" := echoHandler ]})
                     (mkDependencies (addrCodec_StringToBytes account0))
                     (v1.mkConfig 1 1 1 "bls" false) emptyStore _)
                  (v1.mkMsgInit [alice] [1] (Some (v1.mkConfig 1 1 1 "bls" false)))
                  eq_refl eq_refl).
    discriminate.
  - refine (proj2 (NewAccount_without_custom_algorithms "multisig" tt
                     (mkOptions {[ "bls" := echoHandler ]})
                     (mkDependencies (addrCodec_StringToBytes account0))
                     (v1.mkConfig 1 1 1 "bls" false)
                     (store1 "bls" false v1.Active ∅) _)
                  (v1.mkMsgVote "alice" alice 7 true) eq_refl).
    discriminate.
Defined.

(** ** Init and the configuration *)

Lemma Vote_no_config (a : Account) (msg : v1.MsgVote) (ctx : Store) :
  Config ctx = None → Vote a msg ctx = (ctx, Err (ErrNotFound "config")).
Proof. intros Hcfg. unfold Vote. run. by rewrite Hcfg. Qed.

(** X6: Init validates the configuration of its message but never stores
    it.  On a store without a configuration, whatever Init did, every Vote
    that follows fails with the not-found error of the configuration. *)
Theorem Vote_after_Init_finds_no_config (a : Account) (msg : v1.MsgInit)
    (ctx : Store) (vote : v1.MsgVote) :
  Config ctx = None →
  Vote a vote (Init a msg ctx).1 = ((Init a msg ctx).1, Err (ErrNotFound "config")).
Proof.
  intros Hcfg. apply Vote_no_config.
  destruct (Init_others_kept a msg ctx) as (_ & -> & _). done.
Qed.

(** Init succeeds for members [alice] and [bob]; the vote of [alice] that
    follows finds no configuration. *)
Lemma Vote_after_Init_finds_no_config_witness :
  (Init account0 initTwo emptyStore).2 = Ok v1.mkMsgInitResponse ∧
  (Vote account0 (voteOf "alice" 7 true) (Init account0 initTwo emptyStore).1).2
  = Err (ErrNotFound "config").
Proof.
  split; [reflexivity|].
  exact (f_equal snd (Vote_after_Init_finds_no_config account0 initTwo emptyStore
                        (voteOf "alice" 7 true) eq_refl)).
Defined.

(** ** Init and the total weight *)

(** The total is a uint64 value. *)
Lemma totalWeight_range (Weights : list Z) : 0 ≤ totalWeight Weights < two64.
Proof. rewrite totalWeight_sum. by apply Z.mod_pos_bound. Qed.

(** X7: when the weights add up to 0 modulo 2^64 (no member, weights of 0,
    or a sum that wraps around to 0), Init returns an error for every
    configuration whose threshold fits 64 bits: the threshold is zero or
    exceeds that total. *)
Theorem Init_zero_total_fails (a : Account) (msg : v1.MsgInit) (ctx : Store)
    (cfg : v1.Config) :
  v1.InitConfig msg = Some cfg →
  - two64 < v1.Threshold cfg < two64 →
  totalWeight (v1.Weights msg) = 0 →
  ∃ err, (Init a msg ctx).2 = Err err.
Proof.
  intros Hcfg Hrange Hzero.
  destruct (decide (length (v1.PubKeys msg) = length (v1.Weights msg))) as [Hlen|Hlen];
    [|rewrite (Init_lengths_differ a msg ctx Hlen); by eexists].
  assert (Decision (isSupportedAlgo a (v1.Algo cfg))) as [Halgo|Halgo]
    by (unfold isSupportedAlgo; apply _);
    [|destruct (Init_unsupported a msg ctx cfg Hcfg Halgo) as [e ->]; by eexists].
  rewrite (Init_supported a msg ctx cfg Hlen Hcfg Halgo), Hzero. simpl.
  assert (is_Some (validateConfig cfg 0)) as [e ->]; [|by eexists].
  unfold validateConfig.
  destruct (Z.eqb_spec (v1.Threshold cfg) 0) as [|Hne]; [by eexists|].
  destruct (Z.eqb_spec (v1.Quorum cfg) 0); [by eexists|].
  destruct (Z.eqb_spec (v1.VotingPeriod cfg) 0); [by eexists|]. simpl.
  destruct (Z.ltb_spec 0 (uint64 (v1.Threshold cfg))) as [|Hle]; [by eexists|].
  exfalso. unfold uint64, two64 in *.
  change (2 ^ 64) with 18446744073709551616 in *.
  Z.div_mod_to_equations. lia.
Qed.

(** Two members of weight 2^63 each: the total wraps around to 0 and Init
    fails on a threshold of 1. *)
Lemma Init_zero_total_fails_witness :
  totalWeight (v1.Weights initHalves) = 0 ∧
  ∃ err, (Init account0 initHalves emptyStore).2 = Err err.
Proof.
  split; [reflexivity|].
  apply (Init_zero_total_fails account0 initHalves emptyStore
           (v1.mkConfig 1 1 1 "default" false)); [reflexivity | done | reflexivity].
Defined.

Lemma foldr_add_snoc (l : list Z) (w : Z) :
  foldr Z.add 0 (l ++ [w]) = foldr Z.add 0 l + w.
Proof. induction l as [|x l IH]; simpl; lia. Qed.

Lemma foldr_add_nonneg (l : list Z) : Forall (λ w, 0 ≤ w) l → 0 ≤ foldr Z.add 0 l.
Proof. induction 1; simpl; lia. Qed.

Lemma storedWeight_insert (m : gmap (list byte) Z) (k : list byte) (w : Z) :
  m !! k = None → storedWeight (<[k := w]> m) = w + storedWeight m.
Proof.
  intros Hk. unfold storedWeight.
  apply (map_fold_insert_L (λ _ w acc, w + acc)); [|done]. intros. lia.
Qed.

(** Over distinct keys set in an empty registry, the stored weights add up
    to the sum of the list. *)
Lemma storedWeight_setAll (kvs : list (list byte * Z)) :
  NoDup kvs.*1 → storedWeight (setAll kvs ∅) = foldr Z.add 0 kvs.*2.
Proof.
  induction kvs as [|[k w] kvs IH] using rev_ind; [done|].
  rewrite !fmap_app, setAll_snoc. simpl.
  intros [Hnodup [Hk _]]%NoDup_app.
  rewrite storedWeight_insert, foldr_add_snoc, IH by
    (try done; rewrite setAll_lookup_other, ?lookup_empty; try done;
     intros Hin; apply (Hk _ Hin), list_elem_of_here).
  lia.
Qed.

(** X8: on a fresh registry, with distinct identities and non-negative
    weights whose sum fits uint64, a successful Init leaves a registry whose
    total weight is the sum of the list, and the configuration it accepted
    has non-zero threshold, quorum and voting period, and a threshold and a
    quorum (as uint64) within that total. *)
Theorem Init_success_bounds_config (a : Account) (msg : v1.MsgInit) (ctx : Store)
    (cfg : v1.Config) :
  Members ctx = ∅ →
  NoDup (v1.PubKeys msg) →
  Forall (λ w, 0 ≤ w) (v1.Weights msg) →
  foldr Z.add 0 (v1.Weights msg) < two64 →
  v1.InitConfig msg = Some cfg →
  (Init a msg ctx).2 = Ok v1.mkMsgInitResponse →
  storedWeight (Members (Init a msg ctx).1) = foldr Z.add 0 (v1.Weights msg) ∧
  uint64 (v1.Threshold cfg) ≤ storedWeight (Members (Init a msg ctx).1) ∧
  uint64 (v1.Quorum cfg) ≤ storedWeight (Members (Init a msg ctx).1) ∧
  v1.Threshold cfg ≠ 0 ∧ v1.Quorum cfg ≠ 0 ∧ v1.VotingPeriod cfg ≠ 0.
Proof.
  intros Hfresh Hnodup Hpos Hfit Hcfg Hok.
  destruct (decide (length (v1.PubKeys msg) = length (v1.Weights msg))) as [Hlen|Hlen];
    [|by rewrite (Init_lengths_differ a msg ctx Hlen) in Hok].
  assert (Decision (isSupportedAlgo a (v1.Algo cfg))) as [Halgo|Halgo]
    by (unfold isSupportedAlgo; apply _);
    [|by destruct (Init_unsupported a msg ctx cfg Hcfg Halgo) as [e He];
         rewrite He in Hok].
  rewrite (Init_supported a msg ctx cfg Hlen Hcfg Halgo) in Hok |- *.
  simpl in *. rewrite Hfresh.
  rewrite storedWeight_setAll by (by rewrite fst_zip by lia).
  rewrite snd_zip by lia. split; [done|].
  assert (totalWeight (v1.Weights msg) = foldr Z.add 0 (v1.Weights msg)) as Htotal.
  { rewrite totalWeight_sum. apply Z.mod_small.
    split; [by apply foldr_add_nonneg | done]. }
  rewrite Htotal in Hok. revert Hok. unfold validateConfig.
  destruct (Z.eqb_spec (v1.Threshold cfg) 0); [done|].
  destruct (Z.eqb_spec (v1.Quorum cfg) 0); [done|].
  destruct (Z.eqb_spec (v1.VotingPeriod cfg) 0); [done|]. simpl.
  destruct (Z.ltb_spec (foldr Z.add 0 (v1.Weights msg)) (uint64 (v1.Threshold cfg)));
    [done|].
  destruct (Z.ltb_spec (foldr Z.add 0 (v1.Weights msg)) (uint64 (v1.Quorum cfg)));
    done.
Qed.

(** Members of weights 1 and 2 under threshold 3 and quorum 2. *)
Lemma Init_success_bounds_config_witness :
  storedWeight (Members (Init account0 initTwo emptyStore).1) = 3 ∧
  uint64 3 ≤ storedWeight (Members (Init account0 initTwo emptyStore).1) ∧
  uint64 2 ≤ storedWeight (Members (Init account0 initTwo emptyStore).1) ∧
  (3 ≠ 0 ∧ 2 ≠ 0 ∧ 1 ≠ 0).
Proof.
  apply (Init_success_bounds_config account0 initTwo emptyStore
           (v1.mkConfig 3 2 1 "default" false)); try reflexivity.
  - apply NoDup_cons. split; [intros Hin%list_elem_of_singleton; discriminate Hin|].
    apply NoDup_singleton.
  - repeat constructor; done.
Defined.

(** ** Vote, on every path *)

Lemma Vote_voter_error (a : Account) (msg : v1.MsgVote) (ctx : Store)
    (cfg : v1.Config) (err : error) :
  Config ctx = Some cfg →
  (voterBz a cfg msg ctx).2 = Err err →
  Vote a msg ctx = (ctx, Err err).
Proof.
  intros Hcfg Hvoter%voterBz_eq. unfold Vote. run. by rewrite Hcfg, Hvoter.
Qed.

Lemma Vote_voter_panic (a : Account) (msg : v1.MsgVote) (ctx : Store) (cfg : v1.Config) :
  Config ctx = Some cfg →
  (voterBz a cfg msg ctx).2 = Panic →
  Vote a msg ctx = (ctx, Panic).
Proof.
  intros Hcfg Hvoter%voterBz_eq. unfold Vote. run. by rewrite Hcfg, Hvoter.
Qed.

(** The voter depends on the signer and the signature of the vote only, and
    on no store. *)
Lemma voterBz_ext (a : Account) (cfg : v1.Config) (msg msg' : v1.MsgVote)
    (ctx ctx' : Store) :
  v1.Signer msg' = v1.Signer msg →
  v1.Signature msg' = v1.Signature msg →
  (voterBz a cfg msg' ctx').2 = (voterBz a cfg msg ctx).2.
Proof.
  intros Hsigner Hsig. unfold voterBz. rewrite Hsigner, Hsig.
  destruct (String.eqb _ _); [|destruct (customAlgos a !! _)]; run; try done;
    by match goal with |- context [match ?r with inl _ => _ | inr _ => _ end] =>
         destruct r end.
Qed.

(** The store [Vote] leaves when it records the vote of [voter]. *)
Lemma Vote_recorded (a : Account) (msg : v1.MsgVote) (ctx : Store) :
  (Vote a msg ctx).1 = ctx ∧ (Vote a msg ctx).2 ≠ Ok v1.mkMsgVoteResponse ∨
  ∃ cfg voter,
    Config ctx = Some cfg ∧
    (voterBz a cfg msg ctx).2 = Ok voter ∧
    is_Some (Members ctx !! voter) ∧
    is_Some (Proposals ctx !! v1.ProposalId msg) ∧
    (Votes ctx !! (v1.ProposalId msg, voter) = None ∨ v1.Revote cfg = true) ∧
    Vote a msg ctx =
      (mkStore (Members ctx) (Sequence ctx) (Config ctx) (Proposals ctx)
               (<[(v1.ProposalId msg, voter) := v1.Vote msg]> (Votes ctx)),
       Ok v1.mkMsgVoteResponse).
Proof.
  destruct (Config ctx) as [cfg|] eqn:Hcfg;
    [|left; by rewrite (Vote_no_config a msg ctx Hcfg)].
  destruct (voterBz a cfg msg ctx).2 as [voter|e|] eqn:Hvoter;
    [|left; by rewrite (Vote_voter_error a msg ctx cfg e Hcfg Hvoter)
     |left; by rewrite (Vote_voter_panic a msg ctx cfg Hcfg Hvoter)].
  rewrite (Vote_resolved a msg ctx cfg voter Hcfg Hvoter).
  destruct (Members ctx !! voter) as [w|] eqn:Hmember; [|by left].
  destruct (Proposals ctx !! v1.ProposalId msg) as [p|] eqn:Hproposal; [|by left].
  destruct (Votes ctx !! (v1.ProposalId msg, voter)) as [old|] eqn:Hold;
    destruct (v1.Revote cfg) eqn:Hrevote; simpl; try by left.
  all: right; exists cfg, voter; split_and!;
    first [done | by eexists | by left | by right | by rewrite Hcfg].
Qed.

(** X9: a Vote that does not succeed, be it by an error or by a panic,
    leaves the store exactly as it was. *)
Theorem Vote_failure_writes_nothing (a : Account) (msg : v1.MsgVote) (ctx : Store) :
  (Vote a msg ctx).2 ≠ Ok v1.mkMsgVoteResponse →
  (Vote a msg ctx).1 = ctx.
Proof.
  intros Hfail.
  destruct (Vote_recorded a msg ctx) as [[Hsame _]|(cfg & voter & H)]; [done|].
  destruct H as (_ & _ & _ & _ & _ & Heq). by rewrite Heq in Hfail.
Qed.

Lemma Vote_failure_writes_nothing_witness :
  (Vote account0 (voteOf "alice" 7 false)
        (store1 "default" false v1.Active {[ (7, alice) := true ]})).1
  = store1 "default" false v1.Active {[ (7, alice) := true ]}.
Proof.
  apply (Vote_failure_writes_nothing account0 (voteOf "alice" 7 false)
           (store1 "default" false v1.Active {[ (7, alice) := true ]})).
  discriminate.
Defined.

(** X10: Vote writes at most one entry, a vote under the proposal id of the
    message: on every input it leaves the members, the sequence, the
    configuration and the proposals as they were, and the votes either as
    they were or with the value of the message set under that proposal id
    and one voter. *)
Theorem Vote_writes_at_most_one_vote (a : Account) (msg : v1.MsgVote) (ctx : Store) :
  Members (Vote a msg ctx).1 = Members ctx ∧
  Sequence (Vote a msg ctx).1 = Sequence ctx ∧
  Config (Vote a msg ctx).1 = Config ctx ∧
  Proposals (Vote a msg ctx).1 = Proposals ctx ∧
  (Votes (Vote a msg ctx).1 = Votes ctx ∨
   ∃ voter, Votes (Vote a msg ctx).1
            = <[(v1.ProposalId msg, voter) := v1.Vote msg]> (Votes ctx)).
Proof.
  destruct (Vote_recorded a msg ctx) as [[-> _]|(cfg & voter & H)];
    [repeat split; try done; by left|].
  destruct H as (_ & _ & _ & _ & _ & ->). simpl.
  repeat split; try done. right. by exists voter.
Qed.

(** X11: Vote succeeds exactly when the configuration is stored, the voter
    is resolved, the voter is a member, the proposal exists, and either no
    vote of that voter on it is stored or revote is on. *)
Theorem Vote_succeeds_iff (a : Account) (msg : v1.MsgVote) (ctx : Store) :
  (Vote a msg ctx).2 = Ok v1.mkMsgVoteResponse ↔
  ∃ cfg voter,
    Config ctx = Some cfg ∧
    (voterBz a cfg msg ctx).2 = Ok voter ∧
    is_Some (Members ctx !! voter) ∧
    is_Some (Proposals ctx !! v1.ProposalId msg) ∧
    (Votes ctx !! (v1.ProposalId msg, voter) = None ∨ v1.Revote cfg = true).
Proof.
  split.
  - intros Hok.
    destruct (Vote_recorded a msg ctx) as [[_ Hfail]|(cfg & voter & H)]; [done|].
    exists cfg, voter. destruct H as (? & ? & ? & ? & ? & _). by split_and!.
  - intros (cfg & voter & Hcfg & Hvoter & [w Hw] & [p Hp] & Hfree).
    rewrite (Vote_resolved a msg ctx cfg voter Hcfg Hvoter), Hw, Hp.
    destruct Hfree as [-> | ->]; simpl; [done|].
    by rewrite andb_false_r.
Qed.

(** ** Voting twice *)

(** X12: with revote off, a vote that succeeded cannot be followed by
    another of the same signer and signature on the same proposal: the
    second fails with the already-voted error, whatever its value, and the
    value stored for the voter is that of the first. *)
Theorem Vote_twice_revote_off (a : Account) (msg msg' : v1.MsgVote) (ctx : Store)
    (cfg : v1.Config) :
  Config ctx = Some cfg →
  v1.Revote cfg = false →
  (Vote a msg ctx).2 = Ok v1.mkMsgVoteResponse →
  v1.Signer msg' = v1.Signer msg →
  v1.Signature msg' = v1.Signature msg →
  v1.ProposalId msg' = v1.ProposalId msg →
  Vote a msg' (Vote a msg ctx).1 = ((Vote a msg ctx).1, Err ErrAlreadyVoted) ∧
  ∃ voter, (voterBz a cfg msg ctx).2 = Ok voter ∧
           Votes (Vote a msg ctx).1 !! (v1.ProposalId msg, voter) = Some (v1.Vote msg).
Proof.
  intros Hcfg Hrevote Hok Hsigner Hsig Hid.
  destruct (Vote_recorded a msg ctx) as [[_ Hfail]|(cfg' & voter & H)]; [done|].
  destruct H as (Hcfg' & Hvoter & [w Hw] & [p Hp] & _ & Heq).
  assert (cfg' = cfg) as -> by congruence.
  rewrite Heq. simpl. split.
  - rewrite (Vote_resolved a msg' _ cfg voter); simpl;
      [|done|by rewrite (voterBz_ext a cfg msg msg' ctx)].
    by rewrite Hw, Hid, Hp, lookup_insert_eq, Hrevote.
  - exists voter. split; [done | apply lookup_insert_eq].
Qed.

Lemma Vote_twice_revote_off_witness :
  Vote account0 (voteOf "alice" 7 false)
       (Vote account0 (voteOf "alice" 7 true) (store1 "default" false v1.Active ∅)).1
  = (store1 "default" false v1.Active {[ (7, alice) := true ]}, Err ErrAlreadyVoted).
Proof.
  exact (proj1 (Vote_twice_revote_off account0 (voteOf "alice" 7 true)
                  (voteOf "alice" 7 false) (store1 "default" false v1.Active ∅)
                  (v1.mkConfig 1 1 1 "default" false)
                  eq_refl eq_refl eq_refl eq_refl eq_refl eq_refl)).
Defined.

(** X13: with revote on, the last vote wins: after a vote that succeeded,
    another of the same signer and signature on the same proposal succeeds
    as well and leaves the store that it alone would have left. *)
Theorem Vote_twice_revote_on (a : Account) (msg msg' : v1.MsgVote) (ctx : Store)
    (cfg : v1.Config) :
  Config ctx = Some cfg →
  v1.Revote cfg = true →
  (Vote a msg ctx).2 = Ok v1.mkMsgVoteResponse →
  v1.Signer msg' = v1.Signer msg →
  v1.Signature msg' = v1.Signature msg →
  v1.ProposalId msg' = v1.ProposalId msg →
  Vote a msg' (Vote a msg ctx).1 = Vote a msg' ctx ∧
  (Vote a msg' ctx).2 = Ok v1.mkMsgVoteResponse.
Proof.
  intros Hcfg Hrevote Hok Hsigner Hsig Hid.
  destruct (Vote_recorded a msg ctx) as [[_ Hfail]|(cfg' & voter & H)]; [done|].
  destruct H as (Hcfg' & Hvoter & [w Hw] & [p Hp] & _ & Heq).
  assert (cfg' = cfg) as -> by congruence.
  rewrite Heq. simpl.
  rewrite (Vote_resolved a msg' _ cfg voter); simpl;
    [|done|by rewrite (voterBz_ext a cfg msg msg' ctx)].
  rewrite (Vote_resolved a msg' ctx cfg voter);
    [|done|by rewrite (voterBz_ext a cfg msg msg' ctx ctx)].
  rewrite Hw, Hid, Hp, Hrevote, !andb_false_r. simpl.
  by rewrite insert_insert_eq.
Qed.

Lemma Vote_twice_revote_on_witness :
  Vote account0 (voteOf "alice" 7 false)
       (Vote account0 (voteOf "alice" 7 true) (store1 "default" true v1.Active ∅)).1
  = (store1 "default" true v1.Active {[ (7, alice) := false ]},
     Ok v1.mkMsgVoteResponse).
Proof.
  exact (eq_trans
           (proj1 (Vote_twice_revote_on account0 (voteOf "alice" 7 true)
                     (voteOf "alice" 7 false) (store1 "default" true v1.Active ∅)
                     (v1.mkConfig 1 1 1 "default" true)
                     eq_refl eq_refl eq_refl eq_refl eq_refl eq_refl))
           eq_refl).
Defined.

(** ** The voter's credential *)

(** [Vote] reads its message through the voter, the proposal id and the
    value only. *)
Lemma Vote_ext (a : Account) (msg msg' : v1.MsgVote) (ctx : Store) (cfg : v1.Config) :
  Config ctx = Some cfg →
  (voterBz a cfg msg' ctx).2 = (voterBz a cfg msg ctx).2 →
  v1.ProposalId msg' = v1.ProposalId msg →
  v1.Vote msg' = v1.Vote msg →
  Vote a msg' ctx = Vote a msg ctx.
Proof.
  intros Hcfg Hvoter Hid Hvalue.
  destruct (voterBz a cfg msg ctx).2 as [voter|e|] eqn:Hv.
  - rewrite (Vote_resolved a msg' ctx cfg voter Hcfg Hvoter),
      (Vote_resolved a msg ctx cfg voter Hcfg Hv). by rewrite Hid, Hvalue.
  - by rewrite (Vote_voter_error a msg' ctx cfg e Hcfg Hvoter),
      (Vote_voter_error a msg ctx cfg e Hcfg Hv).
  - by rewrite (Vote_voter_panic a msg' ctx cfg Hcfg Hvoter),
      (Vote_voter_panic a msg ctx cfg Hcfg Hv).
Qed.

(** X14: an error in working out the voter is returned as it is and nothing
    is written: under the default algorithm the error of the address codec
    on the signer, under a custom algorithm the error of its handler on the
    signature. *)
Theorem Vote_returns_resolution_error (a : Account) (msg : v1.MsgVote) (ctx : Store)
    (cfg : v1.Config) (err : error) :
  Config ctx = Some cfg →
  (v1.Algo cfg = DefaultSigningAlgo ∧
   addrCodec_StringToBytes a (v1.Signer msg) = inl err) ∨
  (v1.Algo cfg ≠ DefaultSigningAlgo ∧
   ∃ handler, customAlgos a !! v1.Algo cfg = Some handler ∧
              RecoverPubKey handler (v1.Signature msg) = inl err) →
  Vote a msg ctx = (ctx, Err err).
Proof.
  intros Hcfg Hcases. apply (Vote_voter_error a msg ctx cfg err Hcfg).
  unfold voterBz.
  destruct Hcases as [[Halgo Herr]|(Halgo & handler & Hhandler & Herr)].
  - rewrite Halgo. simpl. by rewrite Herr.
  - destruct (String.eqb_spec (v1.Algo cfg) DefaultSigningAlgo); [done|].
    by rewrite Hhandler, Herr.
Qed.

(** A signer the codec does not know, and an empty signature under "bls". *)
Lemma Vote_returns_resolution_error_witness :
  Vote account0 (voteOf "mallory" 7 true) (store1 "default" false v1.Active ∅)
  = (store1 "default" false v1.Active ∅, Err (ErrExternal "decoding bech32 failed")) ∧
  Vote account1 (v1.mkMsgVote "alice" [] 7 true) (store1 "bls" false v1.Active ∅)
  = (store1 "bls" false v1.Active ∅, Err (ErrExternal "malformed signature")).
Proof.
  split.
  - apply (Vote_returns_resolution_error account0 (voteOf "mallory" 7 true) _
             (v1.mkConfig 1 1 1 "default" false)); [reflexivity|].
    left. split; reflexivity.
  - apply (Vote_returns_resolution_error account1 (v1.mkMsgVote "alice" [] 7 true) _
             (v1.mkConfig 1 1 1 "bls" false)); [reflexivity|].
    right. split; [discriminate|]. exists echoHandler. split; reflexivity.
Defined.

(** X15: Vote reads one credential only.  Under the default algorithm the
    signature is not read: votes that agree on signer, proposal and value
    have the same outcome.  Under a custom algorithm the signer is not
    read: votes that agree on signature, proposal and value have the same
    outcome, whoever signed. *)
Theorem Vote_reads_one_credential (a : Account) (msg msg' : v1.MsgVote) (ctx : Store)
    (cfg : v1.Config) :
  Config ctx = Some cfg →
  v1.ProposalId msg' = v1.ProposalId msg →
  v1.Vote msg' = v1.Vote msg →
  (v1.Algo cfg = DefaultSigningAlgo → v1.Signer msg' = v1.Signer msg →
     Vote a msg' ctx = Vote a msg ctx) ∧
  (v1.Algo cfg ≠ DefaultSigningAlgo → v1.Signature msg' = v1.Signature msg →
     Vote a msg' ctx = Vote a msg ctx).
Proof.
  intros Hcfg Hid Hvalue. split; intros Halgo Hsame;
    apply (Vote_ext a msg msg' ctx cfg Hcfg); try done; unfold voterBz.
  - rewrite Halgo. simpl. by rewrite Hsame.
  - destruct (String.eqb_spec (v1.Algo cfg) DefaultSigningAlgo); [done|].
    by rewrite Hsame.
Qed.

(** Under "bls", a vote sent by "mallory" with the signature that recovers
    to [alice] is recorded as the vote of [alice]. *)
Lemma Vote_reads_one_credential_witness :
  Vote account1 (v1.mkMsgVote "mallory" alice 7 true) (store1 "bls" false v1.Active ∅)
  = (store1 "bls" false v1.Active {[ (7, alice) := true ]}, Ok v1.mkMsgVoteResponse).
Proof.
  exact (eq_trans
           (proj2 (Vote_reads_one_credential account1
                     (v1.mkMsgVote "alice" alice 7 true)
                     (v1.mkMsgVote "mallory" alice 7 true)
                     (store1 "bls" false v1.Active ∅)
                     (v1.mkConfig 1 1 1 "bls" false) eq_refl eq_refl eq_refl)
                  ltac:(discriminate) eq_refl)
           eq_refl).
Defined.

(** ** QuerySequence *)

(** X16: QuerySequence reports the stored sequence and leaves the store as
    it was, and no handler of the account moves the sequence: the query
    answers the same after an Init, a Vote or an Authenticate as before. *)
Theorem QuerySequence_unmoved {MsgAuthenticate : Type} (a : Account)
    (q : v1.QuerySequence) (ctx : Store) (init : v1.MsgInit) (vote : v1.MsgVote)
    (auth : MsgAuthenticate) :
  QuerySequence a q ctx = (ctx, Ok (v1.mkQuerySequenceResponse (Sequence ctx))) ∧
  (QuerySequence a q (Init a init ctx).1).2 = (QuerySequence a q ctx).2 ∧
  (QuerySequence a q (Vote a vote ctx).1).2 = (QuerySequence a q ctx).2 ∧
  (QuerySequence a q (Authenticate a auth ctx).1).2 = (QuerySequence a q ctx).2.
Proof.
  unfold QuerySequence. run. simpl. split; [done|].
  destruct (Init_others_kept a init ctx) as (-> & _).
  destruct (Vote_recorded a vote ctx) as [[-> _]|(cfg & voter & H)]; [done|].
  destruct H as (_ & _ & _ & _ & _ & ->). done.
Qed.

(** ** Config Validation and the total weight *)

(** X17: a configuration that is valid for a total weight is valid for
    every larger total weight. *)
Theorem validateConfig_monotone (cfg : v1.Config) (total total' : Z) :
  validateConfig cfg total = None →
  total ≤ total' →
  validateConfig cfg total' = None.
Proof.
  unfold validateConfig. intros Hvalid Hle.
  destruct (_ || _); [done|].
  destruct (Z.ltb_spec total (uint64 (v1.Threshold cfg))); [done|].
  destruct (Z.ltb_spec total (uint64 (v1.Quorum cfg))); [done|].
  destruct (Z.ltb_spec total' (uint64 (v1.Threshold cfg))); [lia|].
  destruct (Z.ltb_spec total' (uint64 (v1.Quorum cfg))); [lia|done].
Qed.

Lemma validateConfig_monotone_witness :
  validateConfig (v1.mkConfig 3 2 1 "default" false) 10 = None.
Proof.
  apply (validateConfig_monotone (v1.mkConfig 3 2 1 "default" false) 3 10);
    [reflexivity | lia].
Defined.

(** ** Init and distinct identities *)

(** X18: with distinct identities, as many weights, a configuration and a
    supported algorithm, every identity of the input is stored with its own
    weight when Init returns, whether the configuration then passes
    validation or not. *)
Theorem Init_stores_each_member (a : Account) (msg : v1.MsgInit) (ctx : Store)
    (cfg : v1.Config) (i : nat) (pk : list byte) (w : Z) :
  length (v1.PubKeys msg) = length (v1.Weights msg) →
  NoDup (v1.PubKeys msg) →
  v1.InitConfig msg = Some cfg →
  isSupportedAlgo a (v1.Algo cfg) →
  v1.PubKeys msg !! i = Some pk →
  v1.Weights msg !! i = Some w →
  Members (Init a msg ctx).1 !! pk = Some w.
Proof.
  intros Hlen Hnodup Hcfg Halgo Hpk Hw.
  rewrite (Init_supported a msg ctx cfg Hlen Hcfg Halgo). simpl.
  assert (zip (v1.PubKeys msg) (v1.Weights msg) !! i = Some (pk, w)) as Hzip.
  { apply lookup_zip_with_Some. by exists pk, w. }
  rewrite <- (take_drop_middle _ _ _ Hzip).
  apply setAll_lookup_last.
  rewrite fmap_drop, fst_zip by lia.
  intros (j & Hj)%list_elem_of_lookup. rewrite lookup_drop in Hj.
  pose proof (NoDup_lookup _ _ _ _ Hnodup Hpk Hj). lia.
Qed.

Lemma Init_stores_each_member_witness :
  Members (Init account0 initTwo emptyStore).1 !! bob = Some 2.
Proof.
  apply (Init_stores_each_member account0 initTwo emptyStore
           (v1.mkConfig 3 2 1 "default" false) 1%nat bob 2); try reflexivity.
  - apply NoDup_cons. split; [intros Hin%list_elem_of_singleton; discriminate Hin|].
    apply NoDup_singleton.
  - by left.
Defined.
